(** * fakecar_api: a shallow embedding of [main.py]

    The service keeps one process-wide dictionary [users_db] from user codes
    to [UserData] objects and serves four request handlers over it.  The
    handlers are [async def] bodies without any [await], so each one runs to
    completion on the event loop: a handler is modelled as one state
    transformer over the process state.

    The process state has three parts: the sources of randomness (the
    [random] module's generator and the operating system's entropy behind
    [uuid.uuid4]), the heap of [UserData] objects (the only objects the
    program mutates in place), and the dictionary itself, which holds
    references into that heap.  Python exceptions are an explicit outcome;
    the state reached when the exception leaves the handler is kept. *)

From Stdlib Require Import PrimFloat ZArith Ascii.
From stdpp Require Import base option list strings pretty.

Local Open Scope Z_scope.

#[local] Set Warnings "-inexact-float".

(** ** Exceptions and the state-and-exception monad *)

Inductive exn : Type :=
| HTTPException (status_code : Z) (detail : string)
| IndexError
| ValueError
| KeyError
| DanglingReference.
(* [DanglingReference] has no Python counterpart: it is what the model
   answers when a reference outside the heap is followed.  [Inv] below
   excludes it in every state the program reaches. *)

Inductive Outcome (A : Type) : Type :=
| Return (a : A)
| Raise (e : exn).
Arguments Return {A} a.
Arguments Raise {A} e.

Definition M (St A : Type) : Type := St → Outcome A * St.

Definition ret {St A} (a : A) : M St A := λ s, (Return a, s).

Definition raise {St A} (e : exn) : M St A := λ s, (Raise e, s).

Definition bind {St A B} (m : M St A) (f : A → M St B) : M St B :=
  λ s, match m s with
       | (Return a, s') => f a s'
       | (Raise e, s') => (Raise e, s')
       end.

Definition gets {St A} (f : St → A) : M St A := λ s, (Return (f s), s).

Definition modify {St} (f : St → St) : M St unit := λ s, (Return tt, f s).

Notation "x <~ m ;; k" := (bind m (λ x, k))
  (at level 100, m at next level, right associativity, only parsing).
Notation "m ;;; k" := (bind m (λ _, k))
  (at level 100, right associativity, only parsing).

(** [[f(x) for x in xs]]: a list comprehension whose body has effects. *)
Fixpoint comprehension {St A B} (f : A → M St B) (xs : list A) : M St (list B) :=
  match xs with
  | [] => ret []
  | x :: xs' => y <~ f x ;; ys <~ comprehension f xs' ;; ret (y :: ys)
  end.

(** [range(n)] *)
Definition range (n : nat) : list Z := Z.of_nat <$> seq 0 n.

(** [returns m s Q]: run from [s], [m] returns normally, with a value and
    a final state that satisfy [Q]. *)
Definition returns {St A} (m : M St A) (s : St) (Q : A → St → Prop) : Prop :=
  ∃ a s', m s = (Return a, s') ∧ Q a s'.

(** ** Python dictionaries

    A [dict] keeps its keys in insertion order; assigning to a key that is
    already present replaces the value in place and keeps the key's
    position.  Keys are strings throughout the program. *)

Definition dict (V : Type) : Type := list (string * V).

Section dict.
Context {V : Type}.

(** [d[k]]; [None] stands for [KeyError]. *)
Fixpoint getitem (k : string) (d : dict V) : option V :=
  match d with
  | [] => None
  | (k', v) :: d' => if decide (k = k') then Some v else getitem k d'
  end.

(** [k in d] *)
Definition contains (k : string) (d : dict V) : bool :=
  bool_decide (is_Some (getitem k d)).

(** [d[k] = v] *)
Fixpoint setitem (k : string) (v : V) (d : dict V) : dict V :=
  match d with
  | [] => [(k, v)]
  | (k', v') :: d' =>
      if decide (k = k') then (k', v) :: d' else (k', v') :: setitem k v d'
  end.

(** [d.keys()] and [d.values()], as lists. *)
Definition keys (d : dict V) : list string := d.*1.
Definition values (d : dict V) : list V := d.*2.

(** A dictionary display [{k1: v1, ..., kn: vn}]: the entries are
    assigned from left to right into an empty dictionary. *)
Definition display (kvs : list (string * V)) : dict V :=
  foldl (λ d kv, setitem kv.1 kv.2 d) [] kvs.
End dict.

(** ** Data models (the pydantic classes) *)

Record CarData : Type := {
  brand : string;
  model : string;
  year : Z;
  vin : string;
  license_plate : string;
  infotainment_capabilities : list string;
  color : string;
  charging_port_location : string;
  battery_capacity : float;
  maximum_range : float;
  charging_connector_types : list string;
  charging_cable_types : list string;
  gps_coordinates : dict float;
  state_of_charge : float;
  speed : float;
  instant_power_consumption : float;
  historical_power_consumption : list float;
  range_estimation : float;
  charging_status : string;
  charging_power_rate : float;
  battery_temperature : float;
  error_codes : list string;
  motor_rpm : float;
  odometer_reading : float;
  battery_12v_voltage : float;
  regenerative_braking_data : dict float;
  tire_pressure : dict float
}.

Record UserData : Type := {
  code : string;
  name : string;
  age : Z;
  language : string;
  nationality : string;
  phone_number : string;
  car : CarData
}.

(** [user.car = car_data]: attribute assignment on a [UserData]. *)
Definition set_car (car_data : CarData) (u : UserData) : UserData :=
  {| code := code u; name := name u; age := age u; language := language u;
     nationality := nationality u; phone_number := phone_number u;
     car := car_data |}.

(** ** Strings *)

(** [str.upper] on ASCII text: the letters a to z go to A to Z, every
    other character stays.  A string is a sequence of bytes here, so this
    is Python's [upper] only when every character is ASCII; Python's
    method is Unicode-aware and can even change the length of other
    text. *)
Definition ascii_upper (c : ascii) : ascii :=
  let n := nat_of_ascii c in
  if decide (97 ≤ n ≤ 122)%nat then ascii_of_nat (n - 32) else c.

Fixpoint upper (s : string) : string :=
  match s with
  | EmptyString => EmptyString
  | String c s' => String (ascii_upper c) (upper s')
  end.

(** [s[:n]] for [n ≥ 0]: the first [n] characters, or all of [s] when it
    is shorter.  Bytes are counted, which is Python's count of characters
    on ASCII text only. *)
Definition slice_to (n : nat) (s : string) : string := String.substring 0 n s.

(** A [str] seen as a sequence: its one-character strings. *)
Definition chars (s : string) : list string :=
  (λ c, String c EmptyString) <$> String.list_ascii_of_string s.

(** [string.ascii_uppercase] *)
Definition ascii_uppercase : string := "ABCDEFGHIJKLMNOPQRSTUVWXYZ".

(** [str(n)] and the formatting of an [int] inside an f-string. *)
Definition str_of_int (n : Z) : string := pretty n.

(** ** Sequences *)

(** [seq[i]]: a negative index counts from the end, an index out of range
    raises [IndexError]. *)
Definition subscript {St A} (seq : list A) (i : Z) : M St A :=
  let len := Z.of_nat (length seq) in
  let j := if decide (i < 0) then i + len else i in
  if decide (0 ≤ j < len)
  then match seq !! Z.to_nat j with
       | Some x => ret x
       | None => raise IndexError
       end
  else raise IndexError.

(** [d[k]] as an expression: [KeyError] when the key is missing. *)
Definition dict_subscript {St V} (d : dict V) (k : string) : M St V :=
  match getitem k d with
  | Some v => ret v
  | None => raise KeyError
  end.

(** ** Randomness

    The Mersenne Twister behind [random] and the entropy behind
    [uuid.uuid4] are not part of the repository.  They are a parameter: a
    state type with the three draws the program makes.  [randbelow n] is
    [Random._randbelow(n)], [random] is [Random.random()], [uuid4_hex] is
    [uuid.uuid4().hex]. *)

Class Entropy (rng : Type) : Type := {
  randbelow : Z → rng → Z * rng;
  random : rng → float * rng;
  uuid4_hex : rng → string * rng
}.

(** The one fact about the library the program relies on: for [n > 0],
    [_randbelow(n)] is in [[0, n)]. *)
Class EntropyLaws (rng : Type) {E : Entropy rng} : Prop := {
  randbelow_range : ∀ (n : Z) (s : rng), 0 < n → 0 ≤ (randbelow n s).1 < n
}.

Section random.
Context {rng : Type} {E : Entropy rng}.

Definition draw {A} (f : rng → A * rng) : M rng A :=
  λ s, (Return (f s).1, (f s).2).

(** [random.uniform(a, b)] is [a + (b - a) * self.random()].  The
    program passes small integer literals for some bounds; they convert
    to floats exactly. *)
Definition random_uniform (a b : float) : M rng float :=
  r <~ draw random ;; ret (a + (b - a) * r)%float.

(** [random.randint(a, b)] is [randrange(a, b + 1)]: [ValueError] on an
    empty range. *)
Definition random_randint (a b : Z) : M rng Z :=
  let width := b + 1 - a in
  if decide (0 < width)
  then r <~ draw (randbelow width) ;; ret (a + r)
  else raise ValueError.

(** [random.choice(seq)]: [IndexError] on an empty sequence, otherwise
    [seq[self._randbelow(len(seq))]]. *)
Definition random_choice {A} (seq : list A) : M rng A :=
  match seq with
  | [] => raise IndexError
  | _ => i <~ draw (randbelow (Z.of_nat (length seq))) ;; subscript seq i
  end.

(** ** [generate_random_car]

   Keyword arguments are evaluated from left to right, so the draws
   happen in the order of the source text. *)

Definition car_options : dict (list string) :=
  display [
    ("Tesla", ["Model 3"; "Model S"; "Model X"; "Model Y"]);
    ("BMW", ["i4"; "iX"; "330e"; "530e"]);
    ("Audi", ["e-tron"; "Q4 e-tron"; "RS e-tron GT"]);
    ("Mercedes", ["EQS"; "EQE"; "EQA"; "EQB"]);
    ("Porsche", ["Taycan"; "Taycan Cross Turismo"]);
    ("Volvo", ["C40"; "XC40 Recharge"])
  ].

Definition colors : list string :=
  ["Black"; "White"; "Blue"; "Red"; "Silver"; "Green"].

Definition generate_random_car : M rng CarData :=
  brand_ <~ random_choice (keys car_options) ;;
  models <~ dict_subscript car_options brand_ ;;
  model_ <~ random_choice models ;;
  year_ <~ random_randint 2020 2024 ;;
  hex <~ draw uuid4_hex ;;
  letter <~ random_choice (chars ascii_uppercase) ;;
  digits <~ random_randint 100 999 ;;
  color_ <~ random_choice colors ;;
  port <~ random_choice ["Front"; "Rear Left"; "Rear Right"] ;;
  battery_capacity_ <~ random_uniform 60 100 ;;
  maximum_range_ <~ random_uniform 250 450 ;;
  state_of_charge_ <~ random_uniform 0 100 ;;
  speed_ <~ random_uniform 0 120 ;;
  instant_ <~ random_uniform 10 30 ;;
  historical <~ comprehension (λ _, random_uniform 10 30) (range 10) ;;
  range_estimation_ <~ random_uniform 150 350 ;;
  charging_status_ <~ random_choice ["Charging"; "Not Charging"; "Scheduled"] ;;
  charging_power_rate_ <~ random_uniform 0 150 ;;
  battery_temperature_ <~ random_uniform 20 40 ;;
  motor_rpm_ <~ random_uniform 0 7000 ;;
  odometer_ <~ random_uniform 0 50000 ;;
  voltage <~ random_uniform 11.5 12.8 ;;
  regen_power <~ random_uniform 0 50 ;;
  regen_efficiency <~ random_uniform 0.8 0.95 ;;
  front_left <~ random_uniform 2.2 2.4 ;;
  front_right <~ random_uniform 2.2 2.4 ;;
  rear_left <~ random_uniform 2.2 2.4 ;;
  rear_right <~ random_uniform 2.2 2.4 ;;
  ret {|
    brand := brand_;
    model := model_;
    year := year_;
    vin := upper (slice_to 17 hex);
    license_plate := letter +:+ str_of_int digits;
    infotainment_capabilities := ["Navigation"; "Bluetooth"; "WiFi"; "Mobile App"];
    color := color_;
    charging_port_location := port;
    battery_capacity := battery_capacity_;
    maximum_range := maximum_range_;
    charging_connector_types := ["Type 2"; "CCS"];
    charging_cable_types := ["Mode 3"; "Mode 4"];
    gps_coordinates :=
      display [("latitude", 41.1498379795316%float);
               ("longitude", (-8.65870106339955)%float)];
    state_of_charge := state_of_charge_;
    speed := speed_;
    instant_power_consumption := instant_;
    historical_power_consumption := historical;
    range_estimation := range_estimation_;
    charging_status := charging_status_;
    charging_power_rate := charging_power_rate_;
    battery_temperature := battery_temperature_;
    error_codes := [];
    motor_rpm := motor_rpm_;
    odometer_reading := odometer_;
    battery_12v_voltage := voltage;
    regenerative_braking_data :=
      display [("power", regen_power); ("efficiency", regen_efficiency)];
    tire_pressure :=
      display [("front_left", front_left); ("front_right", front_right);
               ("rear_left", rear_left); ("rear_right", rear_right)]
  |}.
End random.

(** ** The process state and the handlers *)

(** A reference to a [UserData] object: its position in the heap. *)
Definition ref : Type := nat.

Section service.
Context {rng : Type} {E : Entropy rng}.

Record World : Type := {
  entropy : rng;
  heap : list UserData;
  users_db : dict ref
}.

(** The state when the module has been loaded: [users_db = {}]. *)
Definition init (s : rng) : World :=
  {| entropy := s; heap := []; users_db := [] |}.

(** A computation that only draws random values, run in the process. *)
Definition lift {A} (m : M rng A) : M World A :=
  λ w, ((m (entropy w)).1,
        {| entropy := (m (entropy w)).2; heap := heap w;
           users_db := users_db w |}).

(** [UserData(...)]: a new object, and the reference to it. *)
Definition new (u : UserData) : M World ref :=
  λ w, (Return (length (heap w)),
        {| entropy := entropy w; heap := heap w ++ [u];
           users_db := users_db w |}).

(** Reading the object behind a reference. *)
Definition deref (p : ref) : M World UserData :=
  λ w, match heap w !! p with
       | Some u => (Return u, w)
       | None => (Raise DanglingReference, w)
       end.

(** [p.car = car_data]: the object behind [p] is changed in place. *)
Definition setattr_car (p : ref) (car_data : CarData) : M World unit :=
  λ w, match heap w !! p with
       | Some u =>
           (Return tt,
            {| entropy := entropy w;
               heap := <[p := set_car car_data u]> (heap w);
               users_db := users_db w |})
       | None => (Raise DanglingReference, w)
       end.

(** [code in users_db], [users_db[code]], [users_db[code] = p] *)
Definition db_contains (c : string) : M World bool :=
  gets (λ w, contains c (users_db w)).

Definition db_getitem (c : string) : M World ref :=
  d <~ gets users_db ;; dict_subscript d c.

Definition db_setitem (c : string) (p : ref) : M World unit :=
  modify (λ w, {| entropy := entropy w; heap := heap w;
                  users_db := setitem c p (users_db w) |}).

Definition generate_user_code : string := "aaaaaa".

Definition prepopulate_user : M World unit :=
  car_ <~ lift generate_random_car ;;
  user_data <~ new {| code := generate_user_code;
                      name := "John Doe";
                      age := 30;
                      language := "English";
                      nationality := "US";
                      phone_number := "+11234567890";
                      car := car_ |} ;;
  u <~ deref user_data ;;
  db_setitem (code u) user_data.

Definition startup_event : M World unit := prepopulate_user.

Definition names : list string :=
  ["John Doe"; "Jane Smith"; "Alice Johnson"; "Bob Wilson"].
Definition languages : list string :=
  ["English"; "Spanish"; "French"; "German"].
Definition nationalities : list string := ["US"; "UK"; "FR"; "DE"; "ES"].

Definition create_user : M World ref :=
  name_ <~ lift (random_choice names) ;;
  age_ <~ lift (random_randint 18 80) ;;
  language_ <~ lift (random_choice languages) ;;
  nationality_ <~ lift (random_choice nationalities) ;;
  prefix <~ lift (random_randint 1 99) ;;
  number <~ lift (random_randint 100000000 999999999) ;;
  car_ <~ lift generate_random_car ;;
  user_data <~ new {| code := generate_user_code;
                      name := name_;
                      age := age_;
                      language := language_;
                      nationality := nationality_;
                      phone_number :=
                        "+" +:+ str_of_int prefix +:+ str_of_int number;
                      car := car_ |} ;;
  u <~ deref user_data ;;
  db_setitem (code u) user_data ;;;
  ret user_data.

Definition not_found : exn := HTTPException 404 "User not found".

Definition get_user (c : string) : M World ref :=
  present <~ db_contains c ;;
  if negb present then raise not_found else db_getitem c.

Definition list_users : M World (list ref) :=
  gets (λ w, values (users_db w)).

Definition update_car_data (c : string) (car_data : CarData) : M World ref :=
  present <~ db_contains c ;;
  if negb present then raise not_found
  else
    p <~ db_getitem c ;;
    setattr_car p car_data ;;;
    db_getitem c.

(** What the framework sends back for a returned reference: the object
    as it is when the handler returns. *)
Definition body (w : World) (p : ref) : option UserData := heap w !! p.

(** The User stored under a code: the object [users_db[c]] refers to. *)
Definition stored (w : World) (c : string) : option UserData :=
  getitem c (users_db w) ≫= body w.

(** ** Requests and reachable states *)

Inductive request : Type :=
| Create
| Get (c : string)
| ListAll
| UpdateCar (c : string) (car_data : CarData).

Definition serve (r : request) (w : World) : World :=
  match r with
  | Create => (create_user w).2
  | Get c => (get_user c w).2
  | ListAll => (list_users w).2
  | UpdateCar c car_data => (update_car_data c car_data w).2
  end.

(** The states of the process: the module is loaded, the startup hook
    runs, requests are served one after the other.  The hook is a step
    like the others, so a process whose hook never ran, or ran twice, is
    covered too. *)
Inductive reachable : World → Prop :=
| reachable_init (s : rng) : reachable (init s)
| reachable_startup (w : World) :
    reachable w → reachable (startup_event w).2
| reachable_serve (r : request) (w : World) :
    reachable w → reachable (serve r w).

(** ** The store invariant *)

(** Every stored User carries, as its [code], the non-empty key it is
    stored under. *)
Definition store_invariant (w : World) : Prop :=
  Forall (λ kp, ∃ u, heap w !! kp.2 = Some u ∧ code u = kp.1 ∧ kp.1 ≠ "")
         (users_db w).

(** What makes the model's state a Python state: a dictionary has each
    key once, and no two entries of [users_db] share an object. *)
Definition well_formed (w : World) : Prop :=
  NoDup (keys (users_db w)) ∧ NoDup (values (users_db w)).

Definition Inv (w : World) : Prop := well_formed w ∧ store_invariant w.
End service.

Arguments World rng : clear implicits.

(** ** Auxiliary notions for the properties *)

(** What every generated car has, whatever was drawn. *)
Definition generated (c : CarData) : Prop :=
  length (historical_power_consumption c) = 10%nat ∧
  error_codes c = [] ∧
  keys (tire_pressure c) =
    ["front_left"; "front_right"; "rear_left"; "rear_right"] ∧
  gps_coordinates c =
    display [("latitude", 41.1498379795316%float);
             ("longitude", (-8.65870106339955)%float)].

(** The draws of [create_user], in the order of the source, as one
    computation over the random sources. *)
Definition new_user_data {rng : Type} {E : Entropy rng} : M rng UserData :=
  name_ <~ random_choice names ;;
  age_ <~ random_randint 18 80 ;;
  language_ <~ random_choice languages ;;
  nationality_ <~ random_choice nationalities ;;
  prefix <~ random_randint 1 99 ;;
  number <~ random_randint 100000000 999999999 ;;
  car_ <~ generate_random_car ;;
  ret {| code := generate_user_code;
         name := name_;
         age := age_;
         language := language_;
         nationality := nationality_;
         phone_number := "+" +:+ str_of_int prefix +:+ str_of_int number;
         car := car_ |}.

(** The user [prepopulate_user] builds around a generated car. *)
Definition john_doe (car_ : CarData) : UserData :=
  {| code := generate_user_code;
     name := "John Doe";
     age := 30;
     language := "English";
     nationality := "US";
     phone_number := "+11234567890";
     car := car_ |}.

(** The state once [u] has been allocated and stored under its code, the
    random sources being left at [s']. *)
Definition enrol {rng : Type} (w : World rng) (s' : rng) (u : UserData) : World rng :=
  {| entropy := s';
     heap := heap w ++ [u];
     users_db := setitem (code u) (length (heap w)) (users_db w) |}.

(** The state when only random values have been drawn. *)
Definition drawn {rng : Type} (w : World rng) (s' : rng) : World rng :=
  {| entropy := s'; heap := heap w; users_db := users_db w |}.

(** With the fixed code generator the dictionary never grows beyond one
    entry. *)
Definition at_most_fixed (d : dict ref) : Prop :=
  d = [] ∨ ∃ p, d = [(generate_user_code, p)].

(** Serving a sequence of requests, one after the other. *)
Definition serve_all {rng : Type} {E : Entropy rng}
    (rs : list request) (w : World rng) : World rng :=
  foldl (λ w r, serve r w) w rs.

(** Characters: ASCII lower-case letters, and the digits of [uuid.hex]
    before and after [upper]. *)
Definition lowercase (c : ascii) : Prop := (97 ≤ nat_of_ascii c ≤ 122)%nat.

Definition hex_lower : list ascii :=
  String.list_ascii_of_string "0123456789abcdef".

Definition hex_upper : list ascii :=
  String.list_ascii_of_string "0123456789ABCDEF".

(** ASCII text: every byte below 128.  On such text [upper] and
    [slice_to] are Python's [str.upper] and [[:n]]. *)
Definition is_ascii (s : string) : Prop :=
  Forall (λ ch, (nat_of_ascii ch < 128)%nat) (String.list_ascii_of_string s).


(** The identity of a user: every field but the car. *)
Definition same_identity (u u' : UserData) : Prop :=
  code u' = code u ∧ name u' = name u ∧ age u' = age u ∧
  language u' = language u ∧ nationality u' = nationality u ∧
  phone_number u' = phone_number u.

(** ** A sample source of randomness

    A counter: every draw is a function of it and advances it by one.  It
    is used to run the model on concrete states. *)

Module Sample.
#[export] Instance counter : Entropy nat := {|
  randbelow n s := (Z.of_nat s `mod` n, S s);
  random s := (0.5%float, S s);
  uuid4_hex s := ("3f2b8c1e9d4a4f6b8e7a1c2d3e4f5a6b", S s)
|}.

(** The state after startup, and after one more created user. *)
Definition started : World nat := (startup_event (init 7%nat)).2.
Definition busy : World nat := (create_user started).2.


(** The car the startup hook draws from state 7, and the user around it. *)
Definition first_car : CarData :=
  match (generate_random_car 7%nat).1 with
  | Return c => c
  | Raise _ => {| brand := ""; model := ""; year := 0; vin := "";
                  license_plate := ""; infotainment_capabilities := [];
                  color := ""; charging_port_location := "";
                  battery_capacity := 0%float; maximum_range := 0%float;
                  charging_connector_types := []; charging_cable_types := [];
                  gps_coordinates := []; state_of_charge := 0%float;
                  speed := 0%float; instant_power_consumption := 0%float;
                  historical_power_consumption := [];
                  range_estimation := 0%float; charging_status := "";
                  charging_power_rate := 0%float;
                  battery_temperature := 0%float; error_codes := [];
                  motor_rpm := 0%float; odometer_reading := 0%float;
                  battery_12v_voltage := 0%float;
                  regenerative_braking_data := []; tire_pressure := [] |}
  end.

(** A car no generator would produce: well-typed, and nothing more. *)
Definition parked : CarData := {|
  brand := "";
  model := "Trabant 601";
  year := -1;
  vin := "not a vin";
  license_plate := "";
  infotainment_capabilities := [];
  color := "Papyrus";
  charging_port_location := "none";
  battery_capacity := (-5)%float;
  maximum_range := 0%float;
  charging_connector_types := [];
  charging_cable_types := ["Mode 3"; "Mode 3"];
  gps_coordinates := [];
  state_of_charge := 250%float;
  speed := (-30)%float;
  instant_power_consumption := 0%float;
  historical_power_consumption := [];
  range_estimation := 0%float;
  charging_status := "Unplugged";
  charging_power_rate := 0%float;
  battery_temperature := (-300)%float;
  error_codes := ["E42"];
  motor_rpm := 0%float;
  odometer_reading := (-1)%float;
  battery_12v_voltage := 0%float;
  regenerative_braking_data := [];
  tire_pressure := display [("spare", 1%float)]
|}.
End Sample.

(** * Properties *)

(** ** Rules for [returns] *)

Section rules.
Context {St : Type}.

Lemma returns_ret {A} (a : A) (s : St) (Q : A → St → Prop) :
  Q a s → returns (ret a) s Q.
Proof. intros HQ. by exists a, s. Qed.

Lemma returns_bind {A B} (m : M St A) (f : A → M St B) s P Q :
  returns m s P →
  (∀ a s', P a s' → returns (f a) s' Q) →
  returns (bind m f) s Q.
Proof.
  intros (a & s' & Hm & HP) Hf.
  destruct (Hf a s' HP) as (b & s'' & Hfa & HQ).
  exists b, s''. split; [|done]. unfold bind. by rewrite Hm.
Qed.

Lemma returns_mono {A} (m : M St A) s (P Q : A → St → Prop) :
  returns m s P → (∀ a s', P a s' → Q a s') → returns m s Q.
Proof. intros (a & s' & Hm & HP) HPQ. exists a, s'. eauto. Qed.

Lemma comprehension_returns {A B} (f : A → M St B) (xs : list A) s :
  (∀ x s', returns (f x) s' (λ _ _, True)) →
  returns (comprehension f xs) s (λ ys _, length ys = length xs).
Proof.
  intros Hf. revert s. induction xs as [|x xs IH]; intros s; simpl.
  - by apply returns_ret.
  - eapply returns_bind; [apply Hf|]. intros y s1 _.
    eapply returns_bind; [apply IH|]. intros ys s2 Hlen.
    apply returns_ret. simpl. by rewrite Hlen.
Qed.

Lemma subscript_returns {A} (seq : list A) (i : Z) (s : St) :
  0 ≤ i < Z.of_nat (length seq) →
  returns (subscript seq i) s (λ x s', x ∈ seq ∧ s' = s).
Proof.
  intros Hi. unfold subscript.
  rewrite (decide_False (P := i < 0)) by lia.
  rewrite decide_True by done.
  destruct (lookup_lt_is_Some_2 seq (Z.to_nat i)) as [x Hx]; [lia|].
  rewrite Hx. apply returns_ret. split; [|done].
  by eapply list_elem_of_lookup_2.
Qed.
End rules.

(** ** Facts about dictionaries *)

Section dict_facts.
Context {V : Type}.
Implicit Types (d : dict V) (k : string) (v : V).

Lemma contains_true k d : contains k d = true ↔ is_Some (getitem k d).
Proof. unfold contains. apply bool_decide_eq_true. Qed.

Lemma contains_false k d : contains k d = false ↔ getitem k d = None.
Proof.
  unfold contains. rewrite bool_decide_eq_false.
  by rewrite eq_None_not_Some.
Qed.

Lemma getitem_elem_of k v d : getitem k d = Some v → (k, v) ∈ d.
Proof.
  induction d as [|[k' v'] d IH]; simpl; [done|].
  case_decide as Hk.
  - intros [= <-]. subst k'. apply list_elem_of_here.
  - intros Hd. apply list_elem_of_further. auto.
Qed.

Lemma getitem_None k d : getitem k d = None ↔ k ∉ keys d.
Proof.
  unfold keys. induction d as [|[k' v'] d IH]; simpl.
  - split; [intros _; apply not_elem_of_nil|done].
  - rewrite not_elem_of_cons. case_decide as Hk; [|tauto].
    split; [done|]. tauto.
Qed.

Lemma elem_of_getitem k v d :
  NoDup (keys d) → (k, v) ∈ d → getitem k d = Some v.
Proof.
  unfold keys. induction d as [|[k' v'] d IH]; simpl.
  - intros _ Hin. by apply elem_of_nil in Hin.
  - rewrite NoDup_cons. intros [Hk' Hnd].
    rewrite elem_of_cons. intros [[= -> ->]|Hin].
    + by rewrite decide_True.
    + rewrite decide_False; [auto|].
      intros ->. apply Hk'. apply list_elem_of_fmap.
      by exists (k', v).
Qed.

Lemma getitem_setitem k v d : getitem k (setitem k v d) = Some v.
Proof.
  induction d as [|[k' v'] d IH]; simpl.
  - by rewrite decide_True.
  - case_decide as Hk; simpl.
    + by rewrite decide_True.
    + by rewrite decide_False.
Qed.

Lemma getitem_setitem_ne k k' v d :
  k ≠ k' → getitem k' (setitem k v d) = getitem k' d.
Proof.
  intros Hne. induction d as [|[k0 v0] d IH]; simpl.
  - by rewrite decide_False.
  - case_decide as Hk; simpl; [subst k0|]; case_decide; congruence.
Qed.

(** Assignment keeps the keys in place; a new key goes to the end. *)
Lemma keys_setitem k v d :
  keys (setitem k v d) = if contains k d then keys d else keys d ++ [k].
Proof.
  unfold keys. induction d as [|[k' v'] d IH]; simpl; [done|].
  unfold contains in *. simpl. case_decide as Hk; simpl; [done|].
  change (list_fmap _ _ fst) with (fmap (M := list) (@fst string V)).
  rewrite IH. by destruct (bool_decide _).
Qed.

Lemma NoDup_keys_setitem k v d :
  NoDup (keys d) → NoDup (keys (setitem k v d)).
Proof.
  intros Hnd. rewrite keys_setitem.
  destruct (contains k d) eqn:Hc; [done|].
  apply contains_false, getitem_None in Hc.
  apply NoDup_app. split_and!; [done| |apply NoDup_singleton].
  intros x Hx ->%list_elem_of_singleton. done.
Qed.

Lemma values_setitem_subseteq k v d x :
  x ∈ values (setitem k v d) → x = v ∨ x ∈ values d.
Proof.
  unfold values. induction d as [|[k' v'] d IH]; simpl.
  - intros ->%list_elem_of_singleton. by left.
  - case_decide as Hk; simpl; rewrite !elem_of_cons; intuition.
Qed.

Lemma NoDup_values_setitem k v d :
  v ∉ values d → NoDup (values d) → NoDup (values (setitem k v d)).
Proof.
  unfold values. induction d as [|[k' v'] d IH]; simpl.
  - intros _ _. apply NoDup_singleton.
  - rewrite not_elem_of_cons, NoDup_cons. intros [Hne Hv] [Hv' Hnd].
    case_decide as Hk; simpl; apply NoDup_cons.
    + done.
    + split; [|auto]. intros [->|Hin]%values_setitem_subseteq; done.
Qed.

Lemma Forall_setitem (P : string * V → Prop) k v d :
  P (k, v) → Forall P d → Forall P (setitem k v d).
Proof.
  intros HP. induction 1 as [|[k' v'] d Hx Hd IH]; simpl.
  - by constructor.
  - case_decide as Hk; [subst k'|]; by constructor.
Qed.

(** Without shared values, a value determines its key. *)
Lemma values_inj k1 k2 v d :
  NoDup (values d) → (k1, v) ∈ d → (k2, v) ∈ d → k1 = k2.
Proof.
  unfold values. induction d as [|[k' v'] d IH]; simpl.
  - intros _ Hin. by apply elem_of_nil in Hin.
  - rewrite NoDup_cons, !elem_of_cons. intros [Hv' Hnd] H1 H2.
    assert (∀ k, (k, v') ∈ d → False) as Hfresh.
    { intros k Hin. apply Hv'. apply list_elem_of_fmap. by exists (k, v'). }
    destruct H1 as [H1|H1], H2 as [H2|H2].
    + congruence.
    + injection H1 as -> ->. exfalso. eauto.
    + injection H2 as -> ->. exfalso. eauto.
    + eauto.
Qed.
End dict_facts.

(** ** The random generator *)

Lemma dict_subscript_returns {St V} (d : dict V) (k : string) (v : V) (s : St) :
  getitem k d = Some v →
  returns (dict_subscript d k) s (λ x s', x = v ∧ s' = s).
Proof. intros Hk. unfold dict_subscript. rewrite Hk. by apply returns_ret. Qed.

Lemma car_options_models (b : string) :
  b ∈ keys car_options →
  ∃ models, getitem b car_options = Some models ∧ models ≠ [].
Proof.
  change (keys car_options)
    with ["Tesla"; "BMW"; "Audi"; "Mercedes"; "Porsche"; "Volvo"].
  intros Hb.
  repeat (apply elem_of_cons in Hb as [->|Hb];
          [eexists; split; [reflexivity|done]|]).
  by apply elem_of_nil in Hb.
Qed.

Section random_facts.
Context {rng : Type} {E : Entropy rng} {L : EntropyLaws rng}.

Lemma draw_returns {A} (f : rng → A * rng) (s : rng) :
  returns (draw f) s (λ a s', a = (f s).1 ∧ s' = (f s).2).
Proof. by eexists _, _. Qed.

Lemma random_uniform_returns (a b : float) (s : rng) :
  returns (random_uniform a b) s (λ _ _, True).
Proof.
  eapply returns_bind; [apply draw_returns|].
  intros r s' _. by apply returns_ret.
Qed.

Lemma random_randint_returns (a b : Z) (s : rng) :
  a ≤ b → returns (random_randint a b) s (λ r _, a ≤ r ≤ b).
Proof.
  intros Hab. unfold random_randint. rewrite decide_True by lia.
  eapply returns_bind; [apply draw_returns|].
  intros r s' [-> _]. apply returns_ret.
  pose proof (randbelow_range (b + 1 - a) s). lia.
Qed.

Lemma random_choice_returns {A} (seq : list A) (s : rng) :
  seq ≠ [] → returns (random_choice seq) s (λ x _, x ∈ seq).
Proof.
  intros Hne. unfold random_choice.
  destruct seq as [|x0 seq']; [done|].
  eapply returns_bind; [apply draw_returns|].
  intros i s' [-> _].
  eapply returns_mono; [apply subscript_returns|].
  - apply randbelow_range. simpl. lia.
  - by intros x s'' [Hx _].
Qed.

Ltac draw_next :=
  eapply returns_bind;
  [ first [ apply random_uniform_returns
          | apply random_randint_returns; lia
          | apply random_choice_returns; done
          | apply draw_returns ]
  | intros ? ? ? ].

Lemma generate_random_car_returns (s : rng) :
  returns generate_random_car s (λ c _, generated c).
Proof.
  unfold generate_random_car.
  eapply returns_bind; [by apply random_choice_returns|].
  intros b s1 Hb. destruct (car_options_models b Hb) as (ms & Hms & Hne).
  eapply returns_bind; [by apply dict_subscript_returns|].
  intros ? s2 [-> _].
  eapply returns_bind; [by apply random_choice_returns|].
  intros m s3 _.
  do 11 draw_next.
  eapply returns_bind.
  { apply comprehension_returns. intros. apply random_uniform_returns. }
  intros hist s4 Hhist.
  do 13 draw_next.
  apply returns_ret. by repeat split.
Qed.
End random_facts.

(** C6: for every state of the random sources, [generate_random_car]
    returns a car (it never raises) whose historical power consumption has
    exactly 10 entries, whose error codes are the empty list, whose tire
    pressure has exactly the keys front_left, front_right, rear_left and
    rear_right, and whose GPS coordinates are the fixed Porto constant. *)
Theorem generate_random_car_shape {rng : Type} {E : Entropy rng}
    {L : EntropyLaws rng} (s : rng) :
  ∃ c s', generate_random_car s = (Return c, s') ∧
    length (historical_power_consumption c) = 10%nat ∧
    error_codes c = [] ∧
    keys (tire_pressure c) =
      ["front_left"; "front_right"; "rear_left"; "rear_right"] ∧
    gps_coordinates c =
      display [("latitude", 41.1498379795316%float);
               ("longitude", (-8.65870106339955)%float)].
Proof.
  destruct (generate_random_car_returns s) as (c & s' & Hrun & Hc).
  exists c, s'. split; [done|]. exact Hc.
Qed.

(** ** The handlers, one equation each

    Every handler is rewritten as a single case analysis: on the draws it
    makes, or on what [users_db] holds for the code. *)

Section handler_equations.
Context {rng : Type} {E : Entropy rng}.
Implicit Types (w : World rng) (c : string) (p : ref).

Lemma startup_event_eq w :
  startup_event w =
  match generate_random_car (entropy w) with
  | (Return car_, s') => (Return tt, enrol w s' (john_doe car_))
  | (Raise e, s') => (Raise e, drawn w s')
  end.
Proof.
  unfold startup_event, prepopulate_user, bind, lift, new, deref, db_setitem,
    modify, enrol, drawn.
  destruct (generate_random_car (entropy w)) as [[car_|e] s']; simpl; [|done].
  by rewrite list_lookup_middle.
Qed.

Lemma create_user_eq w :
  create_user w =
  match new_user_data (entropy w) with
  | (Return u, s') => (Return (length (heap w)), enrol w s' u)
  | (Raise e, s') => (Raise e, drawn w s')
  end.
Proof.
  unfold create_user, new_user_data, bind, lift, new, deref, db_setitem,
    modify, ret, enrol, drawn.
  simpl.
  repeat match goal with
         | |- context [match ?m ?s with _ => _ end] =>
             lazymatch type of (m s) with
             | (Outcome _ * rng)%type =>
                 destruct (m s) as [[?|?] ?]; simpl; [|done]
             end
         end.
  by rewrite list_lookup_middle.
Qed.

Lemma get_user_eq c w :
  get_user c w =
  match getitem c (users_db w) with
  | Some p => (Return p, w)
  | None => (Raise not_found, w)
  end.
Proof.
  unfold get_user, bind, db_contains, db_getitem, gets, dict_subscript,
    contains.
  destruct (getitem c (users_db w)) as [p|] eqn:Hc; simpl; [|done].
  unfold bind. simpl. by rewrite Hc.
Qed.

Lemma list_users_eq w : list_users w = (Return (values (users_db w)), w).
Proof. done. Qed.

Lemma update_car_data_eq c car_data w :
  update_car_data c car_data w =
  match getitem c (users_db w) with
  | Some p =>
      match heap w !! p with
      | Some u =>
          (Return p,
           {| entropy := entropy w;
              heap := <[p := set_car car_data u]> (heap w);
              users_db := users_db w |})
      | None => (Raise DanglingReference, w)
      end
  | None => (Raise not_found, w)
  end.
Proof.
  unfold update_car_data, bind, db_contains, db_getitem, gets, dict_subscript,
    setattr_car, contains.
  destruct (getitem c (users_db w)) as [p|] eqn:Hc; simpl; [|done].
  unfold bind. simpl. rewrite Hc. simpl.
  destruct (heap w !! p) as [u|]; simpl; [|done]. by rewrite Hc.
Qed.
End handler_equations.

(** ** The invariant *)

Section invariant.
Context {rng : Type} {E : Entropy rng}.
Implicit Types (w : World rng) (c : string) (p : ref) (u : UserData).

Lemma body_enrol w s' u : body (enrol w s' u) (length (heap w)) = Some u.
Proof. apply list_lookup_middle. done. Qed.

Lemma getitem_enrol w s' u :
  getitem (code u) (users_db (enrol w s' u)) = Some (length (heap w)).
Proof. apply getitem_setitem. Qed.

(** Every reference held by [users_db] points into the heap. *)
Lemma store_invariant_allocated w p :
  store_invariant w → p ∈ values (users_db w) → (p < length (heap w))%nat.
Proof.
  intros Hinv (kp & -> & Hin)%list_elem_of_fmap.
  unfold store_invariant in Hinv. rewrite Forall_forall in Hinv.
  destruct (Hinv kp Hin) as (u & Hu & _). by eapply lookup_lt_Some.
Qed.

Lemma store_invariant_getitem w c p :
  store_invariant w → getitem c (users_db w) = Some p →
  ∃ u, heap w !! p = Some u ∧ code u = c ∧ c ≠ "".
Proof.
  intros Hinv Hc%getitem_elem_of.
  unfold store_invariant in Hinv. rewrite Forall_forall in Hinv.
  apply (Hinv (c, p) Hc).
Qed.

Lemma store_invariant_init (s : rng) : store_invariant (init s).
Proof. constructor. Qed.

Lemma store_invariant_drawn w s' : store_invariant w → store_invariant (drawn w s').
Proof. done. Qed.

Lemma store_invariant_enrol w s' u :
  code u ≠ "" → store_invariant w → store_invariant (enrol w s' u).
Proof.
  intros Hcode Hinv. unfold store_invariant, enrol. simpl.
  apply Forall_setitem.
  - exists u. simpl. by rewrite list_lookup_middle.
  - eapply Forall_impl; [exact Hinv|]. intros kp (u0 & Hu0 & Hk).
    exists u0. split; [|done]. by apply lookup_app_l_Some.
Qed.

Lemma store_invariant_setattr w p u car_data :
  heap w !! p = Some u → store_invariant w →
  store_invariant {| entropy := entropy w;
                     heap := <[p := set_car car_data u]> (heap w);
                     users_db := users_db w |}.
Proof.
  intros Hp Hinv. unfold store_invariant. simpl.
  eapply Forall_impl; [exact Hinv|]. intros [k q] (u0 & Hu0 & Hk). simpl in *.
  destruct (decide (q = p)) as [->|Hne].
  - exists (set_car car_data u). split.
    + apply list_lookup_insert_eq. by eapply lookup_lt_Some.
    + simpl. congruence.
  - exists u0. split; [|done]. by rewrite list_lookup_insert_ne.
Qed.

Lemma new_user_data_code (s s' : rng) u :
  new_user_data s = (Return u, s') → code u = generate_user_code.
Proof.
  unfold new_user_data, bind, ret. intros Hrun.
  repeat case_match; by simplify_eq.
Qed.

Lemma store_invariant_startup w :
  store_invariant w → store_invariant (startup_event w).2.
Proof.
  intros Hinv. rewrite startup_event_eq.
  destruct (generate_random_car (entropy w)) as [[car_|e] s']; simpl.
  - by apply store_invariant_enrol.
  - by apply store_invariant_drawn.
Qed.

Lemma store_invariant_create w :
  store_invariant w → store_invariant (create_user w).2.
Proof.
  intros Hinv. rewrite create_user_eq.
  destruct (new_user_data (entropy w)) as [[u|e] s'] eqn:Hrun; simpl.
  - apply store_invariant_enrol; [|done].
    by rewrite (new_user_data_code _ _ _ Hrun).
  - by apply store_invariant_drawn.
Qed.

Lemma store_invariant_get c w :
  store_invariant w → store_invariant (get_user c w).2.
Proof. rewrite get_user_eq. by destruct (getitem c (users_db w)). Qed.

Lemma store_invariant_update c car_data w :
  store_invariant w → store_invariant (update_car_data c car_data w).2.
Proof.
  intros Hinv. rewrite update_car_data_eq.
  destruct (getitem c (users_db w)) as [p|]; [|done].
  destruct (heap w !! p) as [u|] eqn:Hp; [|done].
  by apply store_invariant_setattr.
Qed.

Lemma well_formed_init (s : rng) : well_formed (init s).
Proof. split; apply NoDup_nil_2. Qed.

Lemma well_formed_enrol w s' u :
  store_invariant w → well_formed w → well_formed (enrol w s' u).
Proof.
  intros Hinv [Hk Hv]. split; simpl.
  - by apply NoDup_keys_setitem.
  - apply NoDup_values_setitem; [|done].
    intros Hin%(store_invariant_allocated _ _ Hinv). lia.
Qed.

Lemma Inv_startup w : Inv w → Inv (startup_event w).2.
Proof.
  intros [Hwf Hinv]. split; [|by apply store_invariant_startup].
  rewrite startup_event_eq.
  destruct (generate_random_car (entropy w)) as [[car_|e] s']; simpl; [|done].
  by apply well_formed_enrol.
Qed.

Lemma Inv_serve (r : request) w : Inv w → Inv (serve r w).
Proof.
  intros [Hwf Hinv]. destruct r as [|c| |c car_data]; simpl.
  - split; [|by apply store_invariant_create].
    rewrite create_user_eq.
    destruct (new_user_data (entropy w)) as [[u|e] s']; simpl; [|done].
    by apply well_formed_enrol.
  - rewrite get_user_eq. by destruct (getitem c (users_db w)).
  - done.
  - split; [|by apply store_invariant_update].
    rewrite update_car_data_eq.
    destruct (getitem c (users_db w)) as [p|]; [|done].
    by destruct (heap w !! p).
Qed.

Lemma reachable_Inv w : reachable w → Inv w.
Proof.
  induction 1 as [s|w _ IH|r w _ IH].
  - split; [apply well_formed_init|apply store_invariant_init].
  - by apply Inv_startup.
  - by apply Inv_serve.
Qed.

Lemma at_most_fixed_setitem (d : dict ref) p :
  at_most_fixed d → setitem generate_user_code p d = [(generate_user_code, p)].
Proof. by intros [->|[q ->]]. Qed.

Lemma reachable_at_most_fixed w : reachable w → at_most_fixed (users_db w).
Proof.
  induction 1 as [s|w _ IH|r w _ IH].
  - by left.
  - rewrite startup_event_eq.
    destruct (generate_random_car (entropy w)) as [[car_|e] s']; simpl; [|done].
    right. eexists. by apply at_most_fixed_setitem.
  - destruct r as [|c| |c car_data]; simpl.
    + rewrite create_user_eq.
      destruct (new_user_data (entropy w)) as [[u|e] s'] eqn:Hrun; simpl; [|done].
      right. eexists. rewrite (new_user_data_code _ _ _ Hrun).
      by apply at_most_fixed_setitem.
    + rewrite get_user_eq. by destruct (getitem c (users_db w)).
    + done.
    + rewrite update_car_data_eq.
      destruct (getitem c (users_db w)) as [p|]; [|done].
      by destruct (heap w !! p).
Qed.
End invariant.

(** ** Creation with a lawful source of randomness *)

Section creation.
Context {rng : Type} {E : Entropy rng} {L : EntropyLaws rng}.
Implicit Types (w : World rng) (c : string) (p : ref) (u : UserData).

Lemma returns_self {St A} (m : M St A) (s : St) Q :
  returns m s Q → returns m s (λ a s', m s = (Return a, s') ∧ Q a s').
Proof. intros (a & s' & Hm & HQ). by exists a, s'. Qed.

Lemma new_user_data_returns (s : rng) :
  returns new_user_data s (λ u _,
    code u = generate_user_code ∧ name u ∈ names ∧ 18 ≤ age u ≤ 80 ∧
    language u ∈ languages ∧ nationality u ∈ nationalities ∧
    (∃ prefix number,
       1 ≤ prefix ≤ 99 ∧ 100000000 ≤ number ≤ 999999999 ∧
       phone_number u = "+" +:+ str_of_int prefix +:+ str_of_int number) ∧
    ∃ s1 s2, generate_random_car s1 = (Return (car u), s2)).
Proof.
  unfold new_user_data.
  eapply returns_bind; [by apply random_choice_returns|]. intros n s1 Hn.
  eapply returns_bind; [by apply random_randint_returns|]. intros a s2 Ha.
  eapply returns_bind; [by apply random_choice_returns|]. intros l s3 Hl.
  eapply returns_bind; [by apply random_choice_returns|]. intros t s4 Ht.
  eapply returns_bind; [by apply random_randint_returns|]. intros x s5 Hx.
  eapply returns_bind; [by apply random_randint_returns|]. intros y s6 Hy.
  eapply returns_bind;
    [apply returns_self, generate_random_car_returns|].
  intros car_ s7 [Hcar _].
  apply returns_ret. cbv beta in *. simpl.
  repeat (split; [first [done | lia]|]).
  split; [|by eauto]. exists x, y. split; [lia|]. split; [lia|done].
Qed.



(** C8: run on the freshly loaded module, the startup hook succeeds and
    leaves [users_db] with exactly one entry, under the fixed code: John
    Doe, aged 30, English, US, with the fixed phone number and the car
    that [generate_random_car] drew.  [list_users] then returns exactly
    that one user. *)
Theorem startup_seeds_john_doe (s : rng) :
  ∃ p u w',
    startup_event (init s) = (Return tt, w') ∧
    users_db w' = [("aaaaaa", p)] ∧
    body w' p = Some u ∧
    code u = "aaaaaa" ∧ name u = "John Doe" ∧ age u = 30 ∧
    language u = "English" ∧ nationality u = "US" ∧
    phone_number u = "+11234567890" ∧
    (generate_random_car s).1 = Return (car u) ∧
    list_users w' = (Return [p], w').
Proof.
  destruct (generate_random_car_returns s) as (car_ & s' & Hrun & _).
  exists 0%nat, (john_doe car_), (enrol (init s) s' (john_doe car_)).
  rewrite startup_event_eq. simpl. rewrite Hrun. by repeat split.
Qed.

(** C7: the code generator is the constant "aaaaaa"; so two calls of
    [create_user] in a row, in any state of the process, both succeed and
    leave [users_db] with exactly one entry, under "aaaaaa", which refers
    to the second user created and no longer to the first. *)
Theorem create_twice_keeps_one w :
  reachable w →
  generate_user_code = "aaaaaa" ∧
  ∃ p1 w1 p2 w2 u2,
    create_user w = (Return p1, w1) ∧
    create_user w1 = (Return p2, w2) ∧
    users_db w1 = [("aaaaaa", p1)] ∧
    users_db w2 = [("aaaaaa", p2)] ∧
    p2 ≠ p1 ∧
    body w2 p2 = Some u2 ∧
    stored w2 "aaaaaa" = Some u2.
Proof.
  intros Hw%reachable_at_most_fixed. split; [done|].
  destruct (new_user_data_returns (entropy w)) as (u1 & s1 & Hrun1 & Hc1 & _).
  set (w1 := enrol w s1 u1).
  destruct (new_user_data_returns (entropy w1)) as (u2 & s2 & Hrun2 & Hc2 & _).
  exists (length (heap w)), w1, (length (heap w1)), (enrol w1 s2 u2), u2.
  assert (users_db w1 = [("aaaaaa", length (heap w))]) as Hdb1.
  { simpl. rewrite Hc1. by apply at_most_fixed_setitem. }
  assert (users_db (enrol w1 s2 u2) = [("aaaaaa", length (heap w1))]) as Hdb2.
  { change (users_db (enrol w1 s2 u2))
      with (setitem (code u2) (length (heap w1)) (users_db w1)).
    by rewrite Hc2, Hdb1. }
  rewrite !create_user_eq, Hrun1. fold w1. rewrite Hrun2.
  split_and!; try done.
  - subst w1. simpl. rewrite length_app. simpl. lia.
  - apply body_enrol.
  - unfold stored. rewrite Hdb2. simpl. apply body_enrol.
Qed.
End creation.

(** ** Reading and updating *)

Section handlers.
Context {rng : Type} {E : Entropy rng}.
Implicit Types (w : World rng) (c : string) (p : ref) (u : UserData).

(** C2: [get_user] never changes the state; it returns the reference that
    [users_db] holds for the code exactly when the code is a key, and
    raises the 404 "User not found" exactly when it is not.  A code is a
    key or it is not, so there is no third outcome. *)
Theorem get_user_found_or_404 c w :
  (get_user c w).2 = w ∧
  (contains c (users_db w) = true ↔
     ∃ p, getitem c (users_db w) = Some p ∧ (get_user c w).1 = Return p) ∧
  (contains c (users_db w) = false ↔
     (get_user c w).1 = Raise (HTTPException 404 "User not found")).
Proof.
  rewrite contains_true, contains_false, get_user_eq.
  destruct (getitem c (users_db w)) as [p|]; simpl;
    (split; [done|]); split; split; try done.
  - intros _. by exists p.
  - by intros (p & ? & ?).
Qed.

(** C3: on a code that is not a key of [users_db], [update_car_data]
    raises the 404 "User not found" and the whole state, dictionary and
    objects, is the one it started from. *)
Theorem update_car_data_absent c car_data w :
  contains c (users_db w) = false →
  update_car_data c car_data w =
    (Raise (HTTPException 404 "User not found"), w).
Proof.
  intros Hc%contains_false. by rewrite update_car_data_eq, Hc.
Qed.

(** C1: on a code that is a key of [users_db], [update_car_data] returns
    the stored user, whose car is now the supplied one, whatever its field
    values; a [get_user] on the same code afterwards returns that user,
    car included, and changes nothing. *)
Theorem update_car_data_replaces_car c car_data w :
  store_invariant w →
  contains c (users_db w) = true →
  ∃ p u w',
    update_car_data c car_data w = (Return p, w') ∧
    body w' p = Some u ∧
    stored w' c = Some u ∧
    car u = car_data ∧
    get_user c w' = (Return p, w').
Proof.
  intros Hinv [p Hc]%contains_true.
  destruct (store_invariant_getitem _ _ _ Hinv Hc) as (u & Hp & _).
  exists p, (set_car car_data u),
    {| entropy := entropy w; heap := <[p := set_car car_data u]> (heap w);
       users_db := users_db w |}.
  rewrite update_car_data_eq, Hc, Hp, get_user_eq. unfold stored, body.
  simpl. rewrite Hc. simpl.
  rewrite list_lookup_insert_eq by (by eapply lookup_lt_Some).
  done.
Qed.

(** C10: a successful [update_car_data] changes the car of the user stored
    under the code and nothing else: that user's code, name, age,
    language, nationality and phone number are what they were, the
    dictionary holds the same references, and the user stored under any
    other code is untouched. *)
Theorem update_car_data_frame c car_data w :
  Inv w →
  contains c (users_db w) = true →
  ∃ p u u' w',
    update_car_data c car_data w = (Return p, w') ∧
    stored w c = Some u ∧
    stored w' c = Some u' ∧
    code u' = code u ∧ name u' = name u ∧ age u' = age u ∧
    language u' = language u ∧ nationality u' = nationality u ∧
    phone_number u' = phone_number u ∧
    users_db w' = users_db w ∧
    (∀ c', c' ≠ c → stored w' c' = stored w c').
Proof.
  intros [[_ Hnd] Hinv] [p Hc]%contains_true.
  destruct (store_invariant_getitem _ _ _ Hinv Hc) as (u & Hp & _).
  exists p, u, (set_car car_data u),
    {| entropy := entropy w; heap := <[p := set_car car_data u]> (heap w);
       users_db := users_db w |}.
  rewrite update_car_data_eq, Hc, Hp. unfold stored, body. simpl.
  rewrite Hc. simpl.
  rewrite list_lookup_insert_eq by (by eapply lookup_lt_Some).
  split_and!; try done.
  intros c' Hne. destruct (getitem c' (users_db w)) as [p'|] eqn:Hc'; [|done].
  simpl. apply list_lookup_insert_ne. intros <-.
  apply Hne. eapply values_inj; [exact Hnd| |]; by apply getitem_elem_of.
Qed.

Lemma Forall2_impl_elem_of {A B} (P Q : A → B → Prop) (l : list A) (k : list B) :
  Forall2 P l k → (∀ x y, x ∈ l → P x y → Q x y) → Forall2 Q l k.
Proof.
  induction 1 as [|x y l k Hxy _ IH]; intros HPQ; constructor.
  - apply HPQ; [apply list_elem_of_here|done].
  - apply IH. intros x' y' Hx'. apply HPQ. by apply list_elem_of_further.
Qed.

(** [list_users] over a dictionary and a heap: entry by entry. *)
Lemma listing (d : dict ref) (h : list UserData) :
  NoDup (keys d) →
  Forall (λ kp, ∃ u, h !! kp.2 = Some u ∧ code u = kp.1 ∧ kp.1 ≠ "") d →
  ∃ us, mapM (h !!.) (values d) = Some us ∧
        code <$> us = keys d ∧
        Forall2 (λ c u, getitem c d ≫= (h !!.) = Some u) (keys d) us.
Proof.
  unfold keys, values.
  induction d as [|[k p] d IH]; intros Hnd Hd.
  - exists []. split_and!; [done..|constructor].
  - rewrite !fmap_cons in *. cbn [fst snd] in *.
    apply NoDup_cons in Hnd as [Hk Hnd].
    apply Forall_cons in Hd as [(u & Hu & Hcode & _) Hd]. cbn [fst snd] in *.
    destruct (IH Hnd Hd) as (us & Hus & Hcodes & Hall).
    exists (u :: us). split_and!.
    + apply mapM_Some. constructor; [done|]. by apply mapM_Some.
    + by rewrite fmap_cons, Hcode, Hcodes.
    + constructor.
      * cbn [getitem]. by rewrite decide_True.
      * eapply Forall2_impl_elem_of; [exact Hall|].
        intros c u0 Hc Hcu. cbn [getitem].
        rewrite decide_False; [done|]. by intros ->.
Qed.

(** C5: [list_users] always returns, without changing the state.  Its
    result has one user per key of [users_db], in the order of the keys:
    the codes of the listed users are exactly the keys, no key occurs
    twice, and each listed user is the one stored under its code.  An
    empty dictionary gives the empty list. *)
Theorem list_users_lists_store w :
  Inv w →
  ∃ ps us,
    list_users w = (Return ps, w) ∧
    mapM (body w) ps = Some us ∧
    code <$> us = keys (users_db w) ∧
    NoDup (keys (users_db w)) ∧
    Forall2 (λ c u, stored w c = Some u) (keys (users_db w)) us ∧
    (users_db w = [] → ps = []).
Proof.
  intros [[Hnd _] Hinv].
  destruct (listing (users_db w) (heap w) Hnd Hinv) as (us & Hus & Hcodes & Hall).
  exists (values (users_db w)), us. split_and!; try done.
  by intros ->.
Qed.

(** C9: each operation of the service keeps the store invariant: when
    every stored user carries the non-empty key it is stored under as its
    code, the same holds after the startup hook, after [create_user],
    after [get_user], after [list_users] and after [update_car_data],
    whether the operation returned or raised. *)
Theorem store_invariant_preserved w :
  store_invariant w →
  store_invariant (startup_event w).2 ∧
  store_invariant (create_user w).2 ∧
  (∀ c, store_invariant (get_user c w).2) ∧
  store_invariant (list_users w).2 ∧
  (∀ c car_data, store_invariant (update_car_data c car_data w).2).
Proof.
  intros Hinv. split_and!.
  - by apply store_invariant_startup.
  - by apply store_invariant_create.
  - intros c. by apply store_invariant_get.
  - done.
  - intros c car_data. by apply store_invariant_update.
Qed.
End handlers.

(** ** The theorems at work on the sample process *)

Import Sample.

(** The counter draws [_randbelow(n)] inside [[0, n)]. *)
#[global] Instance counter_laws : EntropyLaws nat.
Proof. split. intros n s Hn. simpl. by apply Z.mod_pos_bound. Qed.

(** Concrete runs of the model. *)

Example setitem_keeps_position :
  setitem "a" 9 [("a", 1); ("b", 2)] = [("a", 9); ("b", 2)] ∧
  setitem "c" 9 [("a", 1); ("b", 2)] = [("a", 1); ("b", 2); ("c", 9)].
Proof. by split. Qed.

Example subscript_from_the_end :
  subscript [1; 2; 3] (-1) tt = (Return 3, tt) ∧
  subscript [1; 2; 3] 3 tt = (Raise IndexError, tt).
Proof. by split. Qed.

Example vin_of_sample_uuid :
  upper (slice_to 17 "3f2b8c1e9d4a4f6b8e7a1c2d3e4f5a6b") = "3F2B8C1E9D4A4F6B8".
Proof. reflexivity. Qed.

Example started_has_john_doe :
  users_db started = [("aaaaaa", 0%nat)] ∧
  name <$> stored started "aaaaaa" = Some "John Doe".
Proof. split; vm_compute; reflexivity. Qed.

Example busy_has_the_second_user :
  (create_user started).1 = Return 1%nat ∧
  users_db busy = [("aaaaaa", 1%nat)] ∧
  length (heap busy) = 2%nat ∧
  name <$> stored busy "aaaaaa" = Some "Bob Wilson".
Proof. split_and!; vm_compute; reflexivity. Qed.

Example get_user_unknown_code :
  get_user "zzzzzz" started = (Raise (HTTPException 404 "User not found"), started).
Proof. vm_compute. reflexivity. Qed.

Example update_to_parked :
  car <$> stored (update_car_data "aaaaaa" parked started).2 "aaaaaa"
  = Some parked.
Proof. vm_compute. reflexivity. Qed.

Ltac sample_store_invariant :=
  unfold store_invariant; vm_compute;
  repeat (constructor; [eexists; split; [reflexivity|split; [reflexivity|done]]|]);
  constructor.

Ltac sample_well_formed :=
  split; apply (bool_decide_unpack _); vm_compute; exact I.

Lemma generate_random_car_shape_witness :
  EntropyLaws nat ∧
  ∃ c s', generate_random_car 7%nat = (Return c, s') ∧
    length (historical_power_consumption c) = 10%nat ∧
    error_codes c = [] ∧
    keys (tire_pressure c) =
      ["front_left"; "front_right"; "rear_left"; "rear_right"] ∧
    gps_coordinates c =
      display [("latitude", 41.1498379795316%float);
               ("longitude", (-8.65870106339955)%float)].
Proof.
  split; [exact counter_laws|].
  exact (generate_random_car_shape (L := counter_laws) 7%nat).
Defined.



Lemma startup_seeds_john_doe_witness :
  EntropyLaws nat ∧
  ∃ p u w',
    startup_event (init 7%nat) = (Return tt, w') ∧
    users_db w' = [("aaaaaa", p)] ∧
    body w' p = Some u ∧
    code u = "aaaaaa" ∧ name u = "John Doe" ∧ age u = 30 ∧
    language u = "English" ∧ nationality u = "US" ∧
    phone_number u = "+11234567890" ∧
    (generate_random_car 7%nat).1 = Return (car u) ∧
    list_users w' = (Return [p], w').
Proof.
  split; [exact counter_laws|].
  exact (startup_seeds_john_doe (L := counter_laws) 7%nat).
Defined.

Lemma create_twice_keeps_one_witness :
  EntropyLaws nat ∧ reachable started ∧
  generate_user_code = "aaaaaa" ∧
  ∃ p1 w1 p2 w2 u2,
    create_user started = (Return p1, w1) ∧
    create_user w1 = (Return p2, w2) ∧
    users_db w1 = [("aaaaaa", p1)] ∧
    users_db w2 = [("aaaaaa", p2)] ∧
    p2 ≠ p1 ∧
    body w2 p2 = Some u2 ∧
    stored w2 "aaaaaa" = Some u2.
Proof.
  assert (reachable started) as Hr.
  { apply reachable_startup, reachable_init. }
  split; [exact counter_laws|]. split; [exact Hr|].
  exact (create_twice_keeps_one (L := counter_laws) started Hr).
Defined.

Lemma update_car_data_absent_witness :
  contains "zzzzzz" (users_db started) = false ∧
  update_car_data "zzzzzz" parked started =
    (Raise (HTTPException 404 "User not found"), started).
Proof.
  assert (contains "zzzzzz" (users_db started) = false) as Hc
    by (vm_compute; reflexivity).
  split; [exact Hc|].
  exact (update_car_data_absent "zzzzzz" parked started Hc).
Defined.

Lemma update_car_data_replaces_car_witness :
  store_invariant started ∧
  contains "aaaaaa" (users_db started) = true ∧
  ∃ p u w',
    update_car_data "aaaaaa" parked started = (Return p, w') ∧
    body w' p = Some u ∧
    stored w' "aaaaaa" = Some u ∧
    car u = parked ∧
    get_user "aaaaaa" w' = (Return p, w').
Proof.
  assert (store_invariant started) as Hinv by sample_store_invariant.
  assert (contains "aaaaaa" (users_db started) = true) as Hc
    by (vm_compute; reflexivity).
  split; [exact Hinv|]. split; [exact Hc|].
  exact (update_car_data_replaces_car "aaaaaa" parked started Hinv Hc).
Defined.

Lemma update_car_data_frame_witness :
  Inv busy ∧
  contains "aaaaaa" (users_db busy) = true ∧
  ∃ p u u' w',
    update_car_data "aaaaaa" parked busy = (Return p, w') ∧
    stored busy "aaaaaa" = Some u ∧
    stored w' "aaaaaa" = Some u' ∧
    code u' = code u ∧ name u' = name u ∧ age u' = age u ∧
    language u' = language u ∧ nationality u' = nationality u ∧
    phone_number u' = phone_number u ∧
    users_db w' = users_db busy ∧
    (∀ c', c' ≠ "aaaaaa" → stored w' c' = stored busy c').
Proof.
  assert (Inv busy) as Hinv.
  { split; [sample_well_formed|sample_store_invariant]. }
  assert (contains "aaaaaa" (users_db busy) = true) as Hc
    by (vm_compute; reflexivity).
  split; [exact Hinv|]. split; [exact Hc|].
  exact (update_car_data_frame "aaaaaa" parked busy Hinv Hc).
Defined.

Lemma list_users_lists_store_witness :
  Inv started ∧
  ∃ ps us,
    list_users started = (Return ps, started) ∧
    mapM (body started) ps = Some us ∧
    code <$> us = keys (users_db started) ∧
    NoDup (keys (users_db started)) ∧
    Forall2 (λ c u, stored started c = Some u) (keys (users_db started)) us ∧
    (users_db started = [] → ps = []).
Proof.
  assert (Inv started) as Hinv.
  { split; [sample_well_formed|sample_store_invariant]. }
  split; [exact Hinv|].
  exact (list_users_lists_store started Hinv).
Defined.

Lemma store_invariant_preserved_witness :
  store_invariant busy ∧
  store_invariant (startup_event busy).2 ∧
  store_invariant (create_user busy).2 ∧
  (∀ c, store_invariant (get_user c busy).2) ∧
  store_invariant (list_users busy).2 ∧
  (∀ c car_data, store_invariant (update_car_data c car_data busy).2).
Proof.
  assert (store_invariant busy) as Hinv by sample_store_invariant.
  split; [exact Hinv|].
  exact (store_invariant_preserved busy Hinv).
Defined.

(** * Further properties of the generator and the handlers *)

(** ** Strings *)

Lemma length_slice_to (n : nat) (s : string) :
  String.length (slice_to n s) = (n `min` String.length s)%nat.
Proof.
  unfold slice_to. revert s. induction n as [|n IH]; intros [|c s]; simpl; auto.
Qed.

Lemma length_upper (s : string) : String.length (upper s) = String.length s.
Proof. induction s as [|c s IH]; simpl; auto. Qed.

Lemma length_string_app (s t : string) :
  String.length (s +:+ t) = (String.length s + String.length t)%nat.
Proof. induction s as [|c s IH]; simpl; auto. Qed.

Lemma list_ascii_upper (s : string) :
  String.list_ascii_of_string (upper s)
  = ascii_upper <$> String.list_ascii_of_string s.
Proof. induction s as [|c s IH]; simpl; [done|]. by rewrite IH. Qed.

Lemma Forall_slice_to (P : ascii → Prop) (n : nat) (s : string) :
  Forall P (String.list_ascii_of_string s) →
  Forall P (String.list_ascii_of_string (slice_to n s)).
Proof.
  unfold slice_to. revert s.
  induction n as [|n IH]; intros [|c s]; simpl; try by constructor.
  intros [Hc Hs]%Forall_cons. constructor; auto.
Qed.

Lemma ascii_upper_not_lowercase (c : ascii) : ¬ lowercase (ascii_upper c).
Proof.
  unfold lowercase, ascii_upper.
  destruct (decide (97 ≤ nat_of_ascii c ≤ 122)%nat) as [Hc|Hc]; [|done].
  rewrite nat_ascii_embedding by lia. lia.
Qed.

Lemma ascii_upper_hex (c : ascii) : c ∈ hex_lower → ascii_upper c ∈ hex_upper.
Proof.
  unfold hex_lower, hex_upper. simpl. intros Hc.
  repeat (apply elem_of_cons in Hc as [->|Hc];
          [apply (bool_decide_unpack _); vm_compute; exact I|]).
  by apply elem_of_nil in Hc.
Qed.

(** Three decimal digits: checked on each of the 900 numbers. *)
Lemma length_str_of_int_3 (n : Z) :
  100 ≤ n ≤ 999 → String.length (str_of_int n) = 3%nat.
Proof.
  intros Hn.
  assert (Forall (λ k, String.length (str_of_int (100 + Z.of_nat k)) = 3%nat)
                 (seq 0 900)) as Hall.
  { apply (bool_decide_unpack _). vm_compute. exact I. }
  rewrite Forall_forall in Hall.
  replace n with (100 + Z.of_nat (Z.to_nat (n - 100))) by lia.
  apply Hall, elem_of_seq. lia.
Qed.

(** ** What [generate_random_car] draws *)

Section generator.
Context {rng : Type} {E : Entropy rng} {L : EntropyLaws rng}.

Ltac draw_step :=
  eapply returns_bind;
  [ first [ apply random_uniform_returns
          | apply random_randint_returns; lia
          | apply random_choice_returns; done
          | apply draw_returns ]
  | intros ? ? ? ].

Lemma generate_random_car_draws (s : rng) :
  returns generate_random_car s (λ c _,
    (∃ models, getitem (brand c) car_options = Some models ∧ model c ∈ models) ∧
    2020 ≤ year c ≤ 2024 ∧
    (∃ s0, vin c = upper (slice_to 17 (uuid4_hex s0).1)) ∧
    (∃ letter n, letter ∈ chars ascii_uppercase ∧ 100 ≤ n ≤ 999 ∧
                 license_plate c = letter +:+ str_of_int n) ∧
    color c ∈ colors ∧
    charging_port_location c ∈ ["Front"; "Rear Left"; "Rear Right"] ∧
    charging_status c ∈ ["Charging"; "Not Charging"; "Scheduled"] ∧
    infotainment_capabilities c
      = ["Navigation"; "Bluetooth"; "WiFi"; "Mobile App"] ∧
    charging_connector_types c = ["Type 2"; "CCS"] ∧
    charging_cable_types c = ["Mode 3"; "Mode 4"] ∧
    keys (gps_coordinates c) = ["latitude"; "longitude"] ∧
    keys (regenerative_braking_data c) = ["power"; "efficiency"]).
Proof.
  unfold generate_random_car.
  eapply returns_bind; [by apply random_choice_returns|].
  intros b s1 Hb. destruct (car_options_models b Hb) as (ms & Hms & Hne).
  eapply returns_bind; [by apply dict_subscript_returns|].
  intros ? s2 [-> _].
  eapply returns_bind; [by apply random_choice_returns|]. intros m s3 Hm.
  eapply returns_bind; [by apply random_randint_returns|]. intros y s4 Hy.
  eapply returns_bind; [apply draw_returns|]. intros ? s5 [-> _].
  eapply returns_bind; [by apply random_choice_returns|]. intros l s6 Hl.
  eapply returns_bind; [by apply random_randint_returns|]. intros d s7 Hd.
  eapply returns_bind; [by apply random_choice_returns|]. intros co s8 Hco.
  eapply returns_bind; [by apply random_choice_returns|]. intros po s9 Hpo.
  do 5 draw_step.
  eapply returns_bind.
  { apply comprehension_returns. intros. apply random_uniform_returns. }
  intros hist s10 _.
  draw_step.
  eapply returns_bind; [by apply random_choice_returns|]. intros st s11 Hst.
  do 11 draw_step.
  apply returns_ret. cbv beta in *.
  cbn [brand model year vin license_plate color charging_port_location
       charging_status infotainment_capabilities charging_connector_types
       charging_cable_types gps_coordinates regenerative_braking_data].
  split; [by exists ms|]. split; [lia|]. split; [by eexists|].
  split; [by exists l, d|]. done.
Qed.

(** X1: the generator always returns a car whose brand is one of the six
    brands of [car_options] and whose model is one of the models listed
    there for that very brand. *)
Theorem generated_model_belongs_to_brand (s : rng) :
  ∃ c s', generate_random_car s = (Return c, s') ∧
    brand c ∈ ["Tesla"; "BMW"; "Audi"; "Mercedes"; "Porsche"; "Volvo"] ∧
    ∃ models, getitem (brand c) car_options = Some models ∧ model c ∈ models.
Proof.
  destruct (generate_random_car_draws s) as (c & s' & Hrun & Hbm & _).
  exists c, s'. split; [done|]. split; [|done].
  destruct Hbm as (ms & Hms%getitem_elem_of & _).
  change (brand c ∈ keys car_options).
  apply list_elem_of_fmap. by exists (brand c, ms).
Qed.

(** X2: every generated car has a year between 2020 and 2024, one of the
    six colours, one of the three charging port locations and one of the
    three charging states; its infotainment, connector and cable lists
    are the fixed ones; its GPS dictionary has exactly the keys latitude
    and longitude, its regenerative braking dictionary exactly power and
    efficiency. *)
Theorem generated_fields_in_range (s : rng) :
  ∃ c s', generate_random_car s = (Return c, s') ∧
    2020 ≤ year c ≤ 2024 ∧
    color c ∈ ["Black"; "White"; "Blue"; "Red"; "Silver"; "Green"] ∧
    charging_port_location c ∈ ["Front"; "Rear Left"; "Rear Right"] ∧
    charging_status c ∈ ["Charging"; "Not Charging"; "Scheduled"] ∧
    infotainment_capabilities c
      = ["Navigation"; "Bluetooth"; "WiFi"; "Mobile App"] ∧
    charging_connector_types c = ["Type 2"; "CCS"] ∧
    charging_cable_types c = ["Mode 3"; "Mode 4"] ∧
    keys (gps_coordinates c) = ["latitude"; "longitude"] ∧
    keys (regenerative_braking_data c) = ["power"; "efficiency"].
Proof.
  destruct (generate_random_car_draws s)
    as (c & s' & Hrun & _ & Hy & _ & _ & Hrest).
  exists c, s'. split; [done|]. split; [done|]. exact Hrest.
Qed.

(** X3: when [uuid.uuid4().hex] is ASCII text, the VIN of a generated
    car has at most 17 characters and no lower-case letter, whatever the
    length and the characters of that text. *)
Theorem generated_vin_upper_case (s : rng) :
  (∀ s0, is_ascii (uuid4_hex s0).1) →
  ∃ c s', generate_random_car s = (Return c, s') ∧
    is_ascii (vin c) ∧
    (String.length (vin c) ≤ 17)%nat ∧
    Forall (λ ch, ¬ lowercase ch) (String.list_ascii_of_string (vin c)).
Proof.
  intros Huuid.
  destruct (generate_random_car_draws s)
    as (c & s' & Hrun & _ & _ & [s0 Hvin] & _).
  exists c, s'. split; [done|]. rewrite Hvin. split_and!.
  - unfold is_ascii. rewrite list_ascii_upper. apply Forall_fmap.
    eapply Forall_impl; [apply Forall_slice_to, Huuid|].
    intros ch Hch. simpl. unfold ascii_upper.
    destruct (decide (97 ≤ nat_of_ascii ch ≤ 122)%nat); [|done].
    rewrite nat_ascii_embedding by lia. lia.
  - rewrite length_upper, length_slice_to. lia.
  - rewrite list_ascii_upper. apply Forall_fmap, Forall_true.
    intros ch. apply ascii_upper_not_lowercase.
Qed.

(** X4: when [uuid.uuid4().hex] is 32 lower-case hexadecimal digits, as
    the library documents, the VIN is exactly 17 characters, each an
    upper-case hexadecimal digit. *)
Theorem generated_vin_17_hex_digits (s : rng) :
  (∀ s0, String.length (uuid4_hex s0).1 = 32%nat ∧
         Forall (.∈ hex_lower) (String.list_ascii_of_string (uuid4_hex s0).1)) →
  ∃ c s', generate_random_car s = (Return c, s') ∧
    String.length (vin c) = 17%nat ∧
    Forall (.∈ hex_upper) (String.list_ascii_of_string (vin c)).
Proof.
  intros Huuid.
  destruct (generate_random_car_draws s)
    as (c & s' & Hrun & _ & _ & [s0 Hvin] & _).
  destruct (Huuid s0) as [Hlen Hhex].
  exists c, s'. split; [done|]. rewrite Hvin. split.
  - rewrite length_upper, length_slice_to, Hlen. done.
  - rewrite list_ascii_upper. apply Forall_fmap.
    eapply Forall_impl; [by apply Forall_slice_to|].
    intros ch. apply ascii_upper_hex.
Qed.

(** X5: the license plate of a generated car is one upper-case ASCII
    letter followed by the decimal digits of a number between 100 and
    999: four characters in all. *)
Theorem generated_license_plate (s : rng) :
  ∃ c s', generate_random_car s = (Return c, s') ∧
    String.length (license_plate c) = 4%nat ∧
    ∃ letter n,
      letter ∈ chars "ABCDEFGHIJKLMNOPQRSTUVWXYZ" ∧ 100 ≤ n ≤ 999 ∧
      license_plate c = letter +:+ str_of_int n.
Proof.
  destruct (generate_random_car_draws s)
    as (c & s' & Hrun & _ & _ & _ & (l & n & Hl & Hn & Hplate) & _).
  exists c, s'. split; [done|]. split; [|by exists l, n].
  rewrite Hplate, length_string_app, length_str_of_int_3 by done.
  apply list_elem_of_fmap in Hl as (ch & -> & _). done.
Qed.
End generator.

(** ** What the handlers leave alone *)

Section store_frame.
Context {rng : Type} {E : Entropy rng}.
Implicit Types (w : World rng) (c : string) (p : ref) (u : UserData).

Lemma same_identity_refl u : same_identity u u.
Proof. by repeat split. Qed.

Lemma same_identity_trans u1 u2 u3 :
  same_identity u1 u2 → same_identity u2 u3 → same_identity u1 u3.
Proof.
  unfold same_identity. intros (? & ? & ? & ? & ? & ?) (? & ? & ? & ? & ? & ?).
  split_and!; congruence.
Qed.

Lemma contains_setitem {V} (k k' : string) (v : V) (d : dict V) :
  contains k d = true → contains k (setitem k' v d) = true.
Proof.
  rewrite !contains_true. intros Hk.
  destruct (decide (k' = k)) as [->|Hne].
  - rewrite getitem_setitem. by eexists.
  - by rewrite getitem_setitem_ne.
Qed.

Lemma body_serve r w p u :
  body w p = Some u → ∃ u', body (serve r w) p = Some u' ∧ same_identity u u'.
Proof.
  unfold body. intros Hp. destruct r as [|c| |c car_data]; simpl.
  - rewrite create_user_eq.
    destruct (new_user_data (entropy w)) as [[u0|e] s']; simpl;
      exists u; (split; [|apply same_identity_refl]); [|done].
    by apply lookup_app_l_Some.
  - rewrite get_user_eq. destruct (getitem c (users_db w));
      exists u; by split; [|apply same_identity_refl].
  - exists u. by split; [|apply same_identity_refl].
  - rewrite update_car_data_eq.
    destruct (getitem c (users_db w)) as [q|];
      [|exists u; by split; [|apply same_identity_refl]].
    destruct (heap w !! q) as [u0|] eqn:Hq; simpl;
      [|exists u; by split; [|apply same_identity_refl]].
    destruct (decide (q = p)) as [->|Hne].
    + exists (set_car car_data u0). split.
      * apply list_lookup_insert_eq. by eapply lookup_lt_Some.
      * assert (u0 = u) as -> by congruence. by repeat split.
    + exists u. split; [|apply same_identity_refl].
      by rewrite list_lookup_insert_ne.
Qed.

Lemma contains_serve r w c :
  contains c (users_db w) = true → contains c (users_db (serve r w)) = true.
Proof.
  intros Hc. destruct r as [|c0| |c0 car_data]; simpl.
  - rewrite create_user_eq.
    destruct (new_user_data (entropy w)) as [[u0|e] s']; simpl; [|done].
    by apply contains_setitem.
  - rewrite get_user_eq. by destruct (getitem c0 (users_db w)).
  - done.
  - rewrite update_car_data_eq.
    destruct (getitem c0 (users_db w)) as [q|]; [|done].
    by destruct (heap w !! q).
Qed.

Lemma reachable_serve_all (rs : list request) w :
  reachable w → reachable (serve_all rs w).
Proof.
  unfold serve_all. revert w. induction rs as [|r rs IH]; intros w Hw; simpl.
  - done.
  - by apply IH, reachable_serve.
Qed.

Lemma body_serve_all (rs : list request) w p u :
  body w p = Some u →
  ∃ u', body (serve_all rs w) p = Some u' ∧ same_identity u u'.
Proof.
  unfold serve_all. revert w u.
  induction rs as [|r rs IH]; intros w u Hp; simpl.
  - exists u. split; [done|apply same_identity_refl].
  - destruct (body_serve r w p u Hp) as (u1 & Hp1 & Hid1).
    destruct (IH _ _ Hp1) as (u2 & Hp2 & Hid2).
    exists u2. split; [done|]. by apply (same_identity_trans u u1 u2).
Qed.

Lemma contains_serve_all (rs : list request) c w :
  contains c (users_db w) = true →
  contains c (users_db (serve_all rs w)) = true.
Proof.
  unfold serve_all. revert w.
  induction rs as [|r rs IH]; intros w Hc; simpl; [done|].
  by apply IH, contains_serve.
Qed.

(** X6: whatever its outcome, [update_car_data] never adds, removes or
    rebinds an entry of [users_db], never allocates an object and never
    draws a random value. *)
Theorem update_car_data_keeps_store c car_data w :
  users_db (update_car_data c car_data w).2 = users_db w ∧
  length (heap (update_car_data c car_data w).2) = length (heap w) ∧
  entropy (update_car_data c car_data w).2 = entropy w.
Proof.
  rewrite update_car_data_eq.
  destruct (getitem c (users_db w)) as [p|]; [|done].
  destruct (heap w !! p) as [u|]; [|done].
  simpl. by rewrite length_insert.
Qed.

(** X7: the last update wins.  Updating the car under a code twice in a
    row gives the same result and the same state as the second update
    alone, whether the code is present or not. *)
Theorem update_car_data_last_wins c car1 car2 w :
  update_car_data c car2 (update_car_data c car1 w).2
  = update_car_data c car2 w.
Proof.
  rewrite (update_car_data_eq c car1 w).
  destruct (getitem c (users_db w)) as [p|] eqn:Hc; [|done].
  destruct (heap w !! p) as [u|] eqn:Hp; [|done].
  rewrite !update_car_data_eq. simpl. rewrite Hc, Hp.
  rewrite list_lookup_insert_eq by (by eapply lookup_lt_Some).
  by rewrite list_insert_insert_eq.
Qed.

(** X8: writing back the car a user already has changes nothing: the
    update returns the stored user and the state is the one before. *)
Theorem update_car_data_same_car c p u w :
  getitem c (users_db w) = Some p →
  body w p = Some u →
  update_car_data c (car u) w = (Return p, w).
Proof.
  unfold body. intros Hc Hp. rewrite update_car_data_eq, Hc, Hp.
  assert (set_car (car u) u = u) as -> by (by destruct u).
  rewrite list_insert_id by done. by destruct w.
Qed.

(** X9: no sequence of requests changes the identity of an existing
    user object: it stays allocated, and its code, name, age, language,
    nationality and phone number stay what they were.  Only its car can
    change. *)
Theorem identity_fields_immutable (rs : list request) w p u :
  body w p = Some u →
  ∃ u', body (serve_all rs w) p = Some u' ∧
        code u' = code u ∧ name u' = name u ∧ age u' = age u ∧
        language u' = language u ∧ nationality u' = nationality u ∧
        phone_number u' = phone_number u.
Proof.
  intros Hp. destruct (body_serve_all rs w p u Hp) as (u' & Hp' & Hid).
  exists u'. split; [done|exact Hid].
Qed.

(** X10: there is no way to delete: a code that is a key of [users_db]
    is still a key after any sequence of requests. *)
Theorem keys_persist (rs : list request) c w :
  contains c (users_db w) = true →
  contains c (users_db (serve_all rs w)) = true.
Proof. apply contains_serve_all. Qed.

(** X11: [create_user] leaves every existing object as it is, and every
    entry of [users_db] under a code other than "aaaaaa" bound to the
    reference it had, whether the creation returns or raises. *)
Theorem create_user_leaves_others w p u :
  body w p = Some u →
  body (create_user w).2 p = Some u ∧
  ∀ c, c ≠ "aaaaaa" →
       getitem c (users_db (create_user w).2) = getitem c (users_db w).
Proof.
  unfold body. intros Hp. rewrite create_user_eq.
  destruct (new_user_data (entropy w)) as [[u0|e] s'] eqn:Hrun; simpl;
    [|done].
  split; [by apply lookup_app_l_Some|].
  intros c Hc. apply getitem_setitem_ne.
  by rewrite (new_user_data_code _ _ _ Hrun).
Qed.

(** X12: in every state of the process no key occurs twice in
    [users_db], no object is shared by two entries, and every entry
    refers to an allocated object whose code is the entry's non-empty
    key. *)
Theorem reachable_state_consistent w :
  reachable w →
  NoDup (keys (users_db w)) ∧
  NoDup (values (users_db w)) ∧
  ∀ c p, getitem c (users_db w) = Some p →
         ∃ u, body w p = Some u ∧ code u = c ∧ c ≠ "".
Proof.
  intros [[Hk Hv] Hinv]%reachable_Inv. split_and!; [done..|].
  intros c p Hc. by apply store_invariant_getitem.
Qed.

(** X13: in every state of the process "aaaaaa" is the only code there
    can be: [get_user] and [update_car_data] on any other code raise the
    404 and leave the state alone, and [list_users] returns at most one
    user. *)
Theorem reachable_only_fixed_code w :
  reachable w →
  (∀ c, c ≠ "aaaaaa" →
        get_user c w = (Raise (HTTPException 404 "User not found"), w) ∧
        ∀ car_data,
          update_car_data c car_data w
          = (Raise (HTTPException 404 "User not found"), w)) ∧
  ∃ ps, list_users w = (Return ps, w) ∧ (length ps ≤ 1)%nat.
Proof.
  intros Hw%reachable_at_most_fixed. split.
  - intros c Hc.
    assert (getitem c (users_db w) = None) as Hnone.
    { destruct Hw as [->|[p ->]]; [done|]. simpl. by rewrite decide_False. }
    rewrite get_user_eq, Hnone. split; [done|].
    intros car_data. by rewrite update_car_data_eq, Hnone.
  - exists (values (users_db w)). split; [done|].
    destruct Hw as [->|[p ->]]; simpl; lia.
Qed.
End store_frame.

(** ** The service once it has started *)

Section running.
Context {rng : Type} {E : Entropy rng} {L : EntropyLaws rng}.
Implicit Types (w : World rng) (c : string) (p : ref) (u : UserData).

(** X14: once the startup hook has run, the service always has exactly
    one user, under "aaaaaa": after any sequence of requests [get_user]
    on "aaaaaa" returns a user with that code, and [list_users] returns
    exactly that user. *)
Theorem fixed_user_always_there (s : rng) (rs : list request) :
  ∃ w p u,
    w = serve_all rs (startup_event (init s)).2 ∧
    get_user "aaaaaa" w = (Return p, w) ∧
    body w p = Some u ∧
    code u = "aaaaaa" ∧
    list_users w = (Return [p], w).
Proof.
  set (w0 := (startup_event (init s)).2).
  assert (contains "aaaaaa" (users_db w0) = true) as Hc0.
  { subst w0. rewrite startup_event_eq.
    destruct (generate_random_car_returns (entropy (init s)))
      as (car_ & s' & -> & _). done. }
  assert (reachable (serve_all rs w0)) as Hr.
  { apply reachable_serve_all, reachable_startup, reachable_init. }
  apply (contains_serve_all rs) in Hc0.
  set (w := serve_all rs w0) in *.
  apply contains_true in Hc0 as [p Hp].
  destruct (reachable_Inv w Hr) as [_ Hinv].
  destruct (store_invariant_getitem _ _ _ Hinv Hp) as (u & Hu & Hcode & _).
  exists w, p, u. rewrite get_user_eq, Hp. split_and!; try done.
  unfold list_users, gets.
  destruct (reachable_at_most_fixed w Hr) as [Hdb|[q Hdb]];
    rewrite Hdb in *; [done|].
  assert (q = p) as -> by (by injection Hp). done.
Qed.

(** X15: creating a user and then updating the car under the code it was
    given both succeed; the user read back afterwards is the created
    one, with its identity fields as created and the supplied car. *)
Theorem create_then_update w car_data :
  ∃ p u u' w1 w2,
    create_user w = (Return p, w1) ∧
    body w1 p = Some u ∧
    update_car_data (code u) car_data w1 = (Return p, w2) ∧
    get_user (code u) w2 = (Return p, w2) ∧
    body w2 p = Some u' ∧
    car u' = car_data ∧
    code u' = code u ∧ name u' = name u ∧ age u' = age u ∧
    language u' = language u ∧ nationality u' = nationality u ∧
    phone_number u' = phone_number u.
Proof.
  destruct (new_user_data_returns (entropy w)) as (u & s' & Hrun & _).
  pose proof (getitem_enrol w s' u) as Hc.
  pose proof (body_enrol w s' u) as Hp. unfold body in Hp.
  exists (length (heap w)), u, (set_car car_data u), (enrol w s' u),
    {| entropy := entropy (enrol w s' u);
       heap := <[length (heap w) := set_car car_data u]> (heap (enrol w s' u));
       users_db := users_db (enrol w s' u) |}.
  rewrite create_user_eq, Hrun, update_car_data_eq, Hc, Hp, get_user_eq.
  unfold body. cbn [users_db heap]. fold (users_db (enrol w s' u)).
  change (setitem (code u) (length (heap w)) (users_db w))
    with (users_db (enrol w s' u)).
  rewrite Hc.
  rewrite list_lookup_insert_eq by exact (lookup_lt_Some _ _ _ Hp).
  by repeat split.
Qed.
End running.

(** ** The further properties at work on the sample process *)

Lemma generated_model_belongs_to_brand_witness :
  EntropyLaws nat ∧
  ∃ c s', generate_random_car 7%nat = (Return c, s') ∧
    brand c ∈ ["Tesla"; "BMW"; "Audi"; "Mercedes"; "Porsche"; "Volvo"] ∧
    ∃ models, getitem (brand c) car_options = Some models ∧ model c ∈ models.
Proof.
  split; [exact counter_laws|].
  exact (generated_model_belongs_to_brand (L := counter_laws) 7%nat).
Defined.

Lemma generated_fields_in_range_witness :
  EntropyLaws nat ∧
  ∃ c s', generate_random_car 7%nat = (Return c, s') ∧
    2020 ≤ year c ≤ 2024 ∧
    color c ∈ ["Black"; "White"; "Blue"; "Red"; "Silver"; "Green"] ∧
    charging_port_location c ∈ ["Front"; "Rear Left"; "Rear Right"] ∧
    charging_status c ∈ ["Charging"; "Not Charging"; "Scheduled"] ∧
    infotainment_capabilities c
      = ["Navigation"; "Bluetooth"; "WiFi"; "Mobile App"] ∧
    charging_connector_types c = ["Type 2"; "CCS"] ∧
    charging_cable_types c = ["Mode 3"; "Mode 4"] ∧
    keys (gps_coordinates c) = ["latitude"; "longitude"] ∧
    keys (regenerative_braking_data c) = ["power"; "efficiency"].
Proof.
  split; [exact counter_laws|].
  exact (generated_fields_in_range (L := counter_laws) 7%nat).
Defined.

Lemma generated_vin_upper_case_witness :
  EntropyLaws nat ∧
  (∀ s0 : nat, is_ascii (uuid4_hex s0).1) ∧
  ∃ c s', generate_random_car 7%nat = (Return c, s') ∧
    is_ascii (vin c) ∧
    (String.length (vin c) ≤ 17)%nat ∧
    Forall (λ ch, ¬ lowercase ch) (String.list_ascii_of_string (vin c)).
Proof.
  assert (∀ s0 : nat, is_ascii (uuid4_hex s0).1) as Huuid.
  { intros s0. apply (bool_decide_unpack _). vm_compute. exact I. }
  split; [exact counter_laws|]. split; [exact Huuid|].
  exact (generated_vin_upper_case (L := counter_laws) 7%nat Huuid).
Defined.

Lemma generated_vin_17_hex_digits_witness :
  EntropyLaws nat ∧
  (∀ s0 : nat,
     String.length (uuid4_hex s0).1 = 32%nat ∧
     Forall (.∈ hex_lower) (String.list_ascii_of_string (uuid4_hex s0).1)) ∧
  ∃ c s', generate_random_car 7%nat = (Return c, s') ∧
    String.length (vin c) = 17%nat ∧
    Forall (.∈ hex_upper) (String.list_ascii_of_string (vin c)).
Proof.
  assert (∀ s0 : nat,
            String.length (uuid4_hex s0).1 = 32%nat ∧
            Forall (.∈ hex_lower)
                   (String.list_ascii_of_string (uuid4_hex s0).1)) as Huuid.
  { intros s0. split; [reflexivity|].
    apply (bool_decide_unpack _). vm_compute. exact I. }
  split; [exact counter_laws|]. split; [exact Huuid|].
  exact (generated_vin_17_hex_digits (L := counter_laws) 7%nat Huuid).
Defined.

Lemma generated_license_plate_witness :
  EntropyLaws nat ∧
  ∃ c s', generate_random_car 7%nat = (Return c, s') ∧
    String.length (license_plate c) = 4%nat ∧
    ∃ letter n,
      letter ∈ chars "ABCDEFGHIJKLMNOPQRSTUVWXYZ" ∧ 100 ≤ n ≤ 999 ∧
      license_plate c = letter +:+ str_of_int n.
Proof.
  split; [exact counter_laws|].
  exact (generated_license_plate (L := counter_laws) 7%nat).
Defined.

Lemma update_car_data_same_car_witness :
  getitem "aaaaaa" (users_db started) = Some 0%nat ∧
  body started 0%nat = Some (john_doe first_car) ∧
  update_car_data "aaaaaa" (car (john_doe first_car)) started
  = (Return 0%nat, started).
Proof.
  assert (getitem "aaaaaa" (users_db started) = Some 0%nat) as Hc
    by (vm_compute; reflexivity).
  assert (body started 0%nat = Some (john_doe first_car)) as Hp
    by (vm_compute; reflexivity).
  split; [exact Hc|]. split; [exact Hp|].
  exact (update_car_data_same_car "aaaaaa" 0%nat (john_doe first_car) started
           Hc Hp).
Defined.

Lemma identity_fields_immutable_witness :
  body started 0%nat = Some (john_doe first_car) ∧
  ∃ u',
    body (serve_all [UpdateCar "aaaaaa" parked; Create; Get "aaaaaa"] started)
         0%nat = Some u' ∧
    code u' = code (john_doe first_car) ∧
    name u' = name (john_doe first_car) ∧
    age u' = age (john_doe first_car) ∧
    language u' = language (john_doe first_car) ∧
    nationality u' = nationality (john_doe first_car) ∧
    phone_number u' = phone_number (john_doe first_car).
Proof.
  assert (body started 0%nat = Some (john_doe first_car)) as Hp
    by (vm_compute; reflexivity).
  split; [exact Hp|].
  exact (identity_fields_immutable
           [UpdateCar "aaaaaa" parked; Create; Get "aaaaaa"] started 0%nat
           (john_doe first_car) Hp).
Defined.

Lemma keys_persist_witness :
  contains "aaaaaa" (users_db started) = true ∧
  contains "aaaaaa"
    (users_db (serve_all [Create; UpdateCar "zzzzzz" parked; ListAll] started))
  = true.
Proof.
  assert (contains "aaaaaa" (users_db started) = true) as Hc
    by (vm_compute; reflexivity).
  split; [exact Hc|].
  exact (keys_persist [Create; UpdateCar "zzzzzz" parked; ListAll] "aaaaaa"
           started Hc).
Defined.

Lemma create_user_leaves_others_witness :
  body started 0%nat = Some (john_doe first_car) ∧
  body (create_user started).2 0%nat = Some (john_doe first_car) ∧
  ∀ c, c ≠ "aaaaaa" →
       getitem c (users_db (create_user started).2)
       = getitem c (users_db started).
Proof.
  assert (body started 0%nat = Some (john_doe first_car)) as Hp
    by (vm_compute; reflexivity).
  split; [exact Hp|].
  exact (create_user_leaves_others started 0%nat (john_doe first_car) Hp).
Defined.

Lemma reachable_state_consistent_witness :
  reachable busy ∧
  NoDup (keys (users_db busy)) ∧
  NoDup (values (users_db busy)) ∧
  ∀ c p, getitem c (users_db busy) = Some p →
         ∃ u, body busy p = Some u ∧ code u = c ∧ c ≠ "".
Proof.
  assert (reachable busy) as Hr.
  { change (reachable (serve Create (startup_event (init 7%nat)).2)).
    apply reachable_serve, reachable_startup, reachable_init. }
  split; [exact Hr|].
  exact (reachable_state_consistent busy Hr).
Defined.

Lemma reachable_only_fixed_code_witness :
  reachable busy ∧
  (∀ c, c ≠ "aaaaaa" →
        get_user c busy = (Raise (HTTPException 404 "User not found"), busy) ∧
        ∀ car_data,
          update_car_data c car_data busy
          = (Raise (HTTPException 404 "User not found"), busy)) ∧
  ∃ ps, list_users busy = (Return ps, busy) ∧ (length ps ≤ 1)%nat.
Proof.
  assert (reachable busy) as Hr.
  { change (reachable (serve Create (startup_event (init 7%nat)).2)).
    apply reachable_serve, reachable_startup, reachable_init. }
  split; [exact Hr|].
  exact (reachable_only_fixed_code busy Hr).
Defined.

Lemma fixed_user_always_there_witness :
  EntropyLaws nat ∧
  ∃ w p u,
    w = serve_all [Create; UpdateCar "aaaaaa" parked]
                  (startup_event (init 7%nat)).2 ∧
    get_user "aaaaaa" w = (Return p, w) ∧
    body w p = Some u ∧
    code u = "aaaaaa" ∧
    list_users w = (Return [p], w).
Proof.
  split; [exact counter_laws|].
  exact (fixed_user_always_there (L := counter_laws) 7%nat
           [Create; UpdateCar "aaaaaa" parked]).
Defined.

Lemma create_then_update_witness :
  EntropyLaws nat ∧
  ∃ p u u' w1 w2,
    create_user started = (Return p, w1) ∧
    body w1 p = Some u ∧
    update_car_data (code u) parked w1 = (Return p, w2) ∧
    get_user (code u) w2 = (Return p, w2) ∧
    body w2 p = Some u' ∧
    car u' = parked ∧
    code u' = code u ∧ name u' = name u ∧ age u' = age u ∧
    language u' = language u ∧ nationality u' = nationality u ∧
    phone_number u' = phone_number u.
Proof.
  split; [exact counter_laws|].
  exact (create_then_update (L := counter_laws) started parked).
Defined.
